(** * The square client: frontend/src/App.js and the handler of the deployment guide

    The React component [App] keeps one piece of state ([number]), posts it to
    the squaring endpoint when the button is clicked and writes the answer into
    the element [#text_a].  The deployment guide shipped with the repository
    shows a second version of [squareHandler] (path [/api/square], payload
    [numberInt], explicit header, a [.catch]).

    The browser event loop is embedded as a step function over a [World]:
    user events ([Edit], [Click]) and the settlement of an outstanding axios
    call ([Settle]) are processed one at a time, as on the single-threaded
    event loop.  Promises are entries of [pending] holding the callback chain
    attached by the handler. *)

From stdpp Require Import gmap strings list pretty.

(** ** Values, requests, responses *)

(** The values that travel in the [number] field of the payload. *)
Inductive jsval :=
  | VStr (s : string)
  | VNum (z : Z).

Inductive Method := GET | POST.

Global Instance Method_eq_dec : EqDecision Method.
Proof. solve_decision. Defined.

(** An outbound HTTP request as axios puts it on the wire: the payload object
    (serialised as JSON) and the request headers. *)
Record Request := {
  method : Method;
  url : string;
  body : gmap string jsval;
  headers : gmap string string
}.

(** [res] of the [.then] callback; only [res.data] is read by the program.
    axios parses the body of a reply as JSON before it hands it over. The
    endpoint of the guide answers with a JSON string
    ([return str(number*number)]), so [res.data] is a string: [data] covers
    that case. A reply whose data is an object, an array, a number or null
    is not represented. *)
Record Response := {
  status : nat;
  data : string
}.

(** [error] of the [.catch] callback; only [error.message] is read. *)
Record Error := {
  message : string
}.

(** What comes back for one request: an HTTP reply with a status code, or no
    reply at all (network unreachable, connection refused, timeout).
    [payload] is the data of the reply as axios hands it over, a string. *)
Inductive reply :=
  | HttpReply (code : nat) (payload : string)
  | NetworkFailure (reason : string).

Inductive settled (A : Type) :=
  | Fulfilled (v : A)
  | Rejected (e : Error).
Arguments Fulfilled {A} v.
Arguments Rejected {A} e.

(** ** The axios contract used by the program

    [axios.post(url, data, config)] sends a POST whose body is the JSON
    serialisation of [data]; an object payload is labelled
    [application/json] unless [config.headers] already carries a content type.
    The returned promise is fulfilled for a status in the 2xx range and
    rejected otherwise. *)

Definition setContentTypeIfUnset (value : string)
    (h : gmap string string) : gmap string string :=
  match h !! "Content-Type" with
  | Some _ => h
  | None => <["Content-Type" := value]> h
  end.

Definition validateStatus (code : nat) : bool :=
  (200 <=? code) && (code <? 300).

Definition axios_settle (r : reply) : settled Response :=
  match r with
  | HttpReply code payload =>
      if validateStatus code
      then Fulfilled {| status := code; data := payload |}
      else Rejected
             {| message := "Request failed with status code " +:+ pretty code |}
  | NetworkFailure reason => Rejected {| message := reason |}
  end.

(** ** Component state and the DOM

    [text_a] is the markup last assigned to [innerHTML] of the element
    [#text_a]. The assignment makes the browser parse that markup: what the
    element then shows is [displayed], not the assigned string itself.
    [renders], [console] and [unhandled] are logs kept for the statements:
    the program never reads them. *)

Record UI := {
  number : string;                  (* const [number, setNumber] = useState("") *)
  text_a : string;                  (* innerHTML of <h1 id="text_a"> *)
  renders : list string;            (* arguments of the calls to [sample], oldest first *)
  console : list (string * Error);  (* console.error(label, error) *)
  unhandled : list Error            (* rejections that reached the end of a chain *)
}.

Definition setNumber (s : string) (u : UI) : UI :=
  {| number := s; text_a := text_a u; renders := renders u;
     console := console u; unhandled := unhandled u |}.

(** [function sample(result) { document.getElementById("text_a").innerHTML = result; }]
    The markup of the element is replaced by [result]; its content becomes
    the fragment parsed from it (see [html_text] and [displayed]). *)
Definition sample (result : string) (u : UI) : UI :=
  {| number := number u; text_a := result; renders := renders u ++ [result];
     console := console u; unhandled := unhandled u |}.

Definition console_error (label : string) (e : Error) (u : UI) : UI :=
  {| number := number u; text_a := text_a u; renders := renders u;
     console := console u ++ [(label, e)]; unhandled := unhandled u |}.

Definition report_unhandled (e : Error) (u : UI) : UI :=
  {| number := number u; text_a := text_a u; renders := renders u;
     console := console u; unhandled := unhandled u ++ [e] |}.

(** ** What the element shows

    Assigning to [innerHTML] runs the HTML fragment parser on the string.
    [html_text s] is the text content of the element after [innerHTML = s],
    for the strings on which it is modelled: characters other than [<], [&],
    NUL and CR stand for themselves, and the character references [&lt;],
    [&gt;] and [&amp;] stand for [<], [>] and [&]. On any other string (a
    tag, another reference, a bare [&]) the result is [None]: the parse is
    not modelled. The text content is the character data of the element;
    its layout on the screen (fonts, collapsing of white space) is not part
    of it. *)

Definition plain_char (c : Ascii.ascii) : bool :=
  let n := Ascii.nat_of_ascii c in
  negb (n =? 60) && negb (n =? 38) && negb (n =? 0) && negb (n =? 13).

Fixpoint plain_text (s : string) : bool :=
  match s with
  | EmptyString => true
  | String c s' => plain_char c && plain_text s'
  end.

Fixpoint html_text (s : string) : option string :=
  match s with
  | EmptyString => Some EmptyString
  | String c rest =>
      if plain_char c then String c <$> html_text rest
      else if Ascii.nat_of_ascii c =? 38 then
        match rest with
        | String c1 (String c2 (String c3 rest3)) =>
            let name := String c1 (String c2 (String c3 EmptyString)) in
            if String.eqb name "lt;" then (fun t => "<" +:+ t) <$> html_text rest3
            else if String.eqb name "gt;" then (fun t => ">" +:+ t) <$> html_text rest3
            else
              match rest3 with
              | String c4 rest4 =>
                  if String.eqb (name +:+ String c4 EmptyString) "amp;"
                  then (fun t => "&" +:+ t) <$> html_text rest4
                  else None
              | EmptyString => None
              end
        | _ => None
        end
      else None
  end.

(** The text the element [#text_a] shows, where the model determines it. *)
Definition displayed (u : UI) : option string := html_text (text_a u).

(** ** Promise chains

    A stage of a chain receives the settlement of the previous stage and the
    UI, runs its callback (if it applies) and passes a settlement on. *)

Definition stage (A B : Type) : Type := settled A -> UI -> settled B * UI.

Definition p_then {A} (f : A -> UI -> UI) : stage A unit :=
  fun o u =>
    match o with
    | Fulfilled v => (Fulfilled tt, f v u)
    | Rejected e => (Rejected e, u)
    end.

Definition p_catch {A} (g : Error -> UI -> UI) : stage A unit :=
  fun o u =>
    match o with
    | Fulfilled _ => (Fulfilled tt, u)
    | Rejected e => (Fulfilled tt, g e u)
    end.

Definition p_seq {A B C} (s1 : stage A B) (s2 : stage B C) : stage A C :=
  fun o u => let '(o1, u1) := s1 o u in s2 o1 u1.

(** A rejection nobody caught is reported by the runtime as unhandled. *)
Definition p_end {A} (s : stage A unit) : settled A -> UI -> UI :=
  fun o u =>
    match s o u with
    | (Fulfilled _, u1) => u1
    | (Rejected e, u1) => report_unhandled e u1
    end.

Abbreviation chain := (settled Response -> UI -> UI).

(** ** The world: UI, requests sent so far, outstanding calls *)

Record World := {
  ui : UI;
  network : list Request;
  pending : gmap nat chain
}.

Definition init : World :=
  {| ui := {| number := ""; text_a := ""; renders := [];
              console := []; unhandled := [] |};
     network := [];
     pending := ∅ |}.

(** [axios.post(url, data, config)] followed by the callbacks [k] attached to
    the returned promise. The promise is identified by the position of its
    request in [network]. *)
Definition axios_post (url' : string) (data' : gmap string jsval)
    (config_headers : gmap string string) (k : chain) (w : World) : World :=
  {| ui := ui w;
     network := network w ++
       [ {| method := POST; url := url'; body := data';
            headers := setContentTypeIfUnset "application/json" config_headers |} ];
     pending := <[length (network w) := k]> (pending w) |}.

(** ** The two versions of [squareHandler] *)

Module AppJs.

(** App.js, lines 14-18:
    [axios.post("/square", { number: number }).then((res) => { sample(res.data); });] *)
Definition onSettled : chain :=
  p_end (p_then (fun res => sample (data res))).

Definition squareHandler (w : World) : World :=
  axios_post "/square" {[ "number" := VStr (number (ui w)) ]} ∅ onSettled w.

End AppJs.

Module Guide.
Section Guide.

(** [numberInt] is a free identifier of the guide's snippet; its binding is
    not part of the repository. It is taken as a parameter: the value it
    holds when the input field holds a given string. *)
Variable numberInt : string -> jsval.

(** Deployment guide, "React Frontend API Call":
    [axios.post("/api/square", { number: numberInt },
                { headers: { 'Content-Type': 'application/json' } })
       .then((res) => { sample(res.data); })
       .catch((error) => { console.error("Error:", error);
                           sample("Error: " + error.message); });] *)
Definition onSettled : chain :=
  p_end (p_seq
    (p_then (fun res => sample (data res)))
    (p_catch (fun error u =>
       sample ("Error: " +:+ message error) (console_error "Error:" error u)))).

Definition squareHandler (w : World) : World :=
  axios_post "/api/square" {[ "number" := numberInt (number (ui w)) ]}
    {[ "Content-Type" := "application/json" ]} onSettled w.

End Guide.
End Guide.

(** ** The event loop *)

Inductive event :=
  | Edit (s : string)               (* onChange of the input, event.target.value = s *)
  | Click                           (* onClick of the button *)
  | Settle (id : nat) (r : reply).  (* the call number [id] comes back with [r] *)

Section EventLoop.

(** The handler wired to the button. *)
Variable squareHandler : World -> World.

Definition step (e : event) (w : World) : World :=
  match e with
  | Edit s =>
      {| ui := setNumber s (ui w); network := network w; pending := pending w |}
  | Click => squareHandler w
  | Settle id r =>
      match pending w !! id with
      | Some k =>
          {| ui := k (axios_settle r) (ui w);
             network := network w;
             pending := delete id (pending w) |}
      | None => w
      end
  end.

Definition run (es : list event) (w : World) : World :=
  foldl (fun w e => step e w) w es.

End EventLoop.

Definition app_run := run AppJs.squareHandler.
Definition guide_run (numberInt : string -> jsval) :=
  run (Guide.squareHandler numberInt).

(** ** Vocabulary of the properties *)

(** Both handlers have this shape: one [axios.post] whose payload is built from
    the current [number], with a fixed callback chain. *)
Definition posting (url' : string) (mk : string -> gmap string jsval)
    (hdrs : gmap string string) (k : chain) (w : World) : World :=
  axios_post url' (mk (number (ui w))) hdrs k w.

(** Every outstanding call carries the chain [k] and was really sent. *)
Definition callbacks_are (k : chain) (w : World) : Prop :=
  forall id k', pending w !! id = Some k' ->
    k' = k /\ id < length (network w).

(** The text a settlement puts on the page when it is rendered with the
    guide's chain. *)
Definition rendering (o : settled Response) : string :=
  match o with
  | Fulfilled res => data res
  | Rejected e => "Error: " +:+ message e
  end.

(** The string typed last, [s0] if nothing was typed. *)
Definition last_edit (es : list event) (s0 : string) : string :=
  foldl (fun s e => match e with Edit s' => s' | _ => s end) s0 es.

(** The display agrees with the latest call to [sample]. *)
Definition shows_latest (u : UI) : Prop :=
  text_a u = default "" (last (renders u)).

Global Instance shows_latest_dec (u : UI) : Decision (shows_latest u).
Proof. unfold shows_latest. apply _. Defined.

(** Number of triggers among the events. *)
Fixpoint clicks (es : list event) : nat :=
  match es with
  | [] => 0
  | Click :: es => S (clicks es)
  | _ :: es => clicks es
  end.

(** A request as the wire contract wants it: a POST to [path] whose JSON body
    has the single field [number], labelled [application/json]. *)
Definition is_square_post (path : string) (r : Request) : Prop :=
  method r = POST /\
  url r = path /\
  dom (body r) = {[ "number" ]} /\
  headers r !! "Content-Type" = Some "application/json".

Global Instance is_square_post_dec (path : string) (r : Request) :
  Decision (is_square_post path r).
Proof. unfold is_square_post. apply _. Defined.

(** ** Traces of a run *)

(** The content of the input field at each [Click] of [es], oldest first;
    [cur] is its content before the first event. *)
Fixpoint inputs_at_clicks (es : list event) (cur : string) : list string :=
  match es with
  | [] => []
  | Edit s :: es => inputs_at_clicks es s
  | Click :: es => cur :: inputs_at_clicks es cur
  | Settle _ _ :: es => inputs_at_clicks es cur
  end.

(** The events that are not keystrokes. *)
Fixpoint drop_edits (es : list event) : list event :=
  match es with
  | [] => []
  | Edit _ :: es => drop_edits es
  | e :: es => e :: drop_edits es
  end.

(** Two UIs show the same page: they agree on everything but the content of
    the input field. *)
Definition same_page (u1 u2 : UI) : Prop :=
  text_a u1 = text_a u2 /\
  renders u1 = renders u2 /\
  console u1 = console u2 /\
  unhandled u1 = unhandled u2.

(** Two worlds with the same page, as many requests sent and the same
    outstanding calls. *)
Definition same_calls (w1 w2 : World) : Prop :=
  same_page (ui w1) (ui w2) /\
  length (network w1) = length (network w2) /\
  pending w1 = pending w2.

(** Two UIs that differ at most in the order of their logs. *)
Definition same_logs (u1 u2 : UI) : Prop :=
  number u1 = number u2 /\
  renders u1 ≡ₚ renders u2 /\
  console u1 ≡ₚ console u2 /\
  unhandled u1 ≡ₚ unhandled u2.

(** ** The backend endpoint and the routing in front of it *)

Module Backend.

(** Modelled from the spec: the class [My_Number_Class] of the endpoint's
    argument is not part of the repository. The request object has the single
    numeric field [number]; it is taken here as a Python [int]. *)
Record My_Number_Class := { number : Z }.

(** HTTPS guide, "FastAPI Endpoint":
    [@app.post("/api/square")  # Note the /api prefix
     def square(data:My_Number_Class):
         number = data.number
         return str(number*number)]
    [square] is the decimal text that [str] builds. CPython converts an
    [int] to [str] only up to [int_max_str_digits] digits and raises
    ValueError beyond: [square] is the value the endpoint returns exactly
    when [str_returns] holds of the product. *)
Definition route : string := "/api/square".

Definition square (data : My_Number_Class) : string :=
  pretty (number data * number data)%Z.

(** [sys.int_info.default_max_str_digits], the default limit of CPython
    (3.8.14 and later) on the number of digits of an [int] converted to
    [str]. *)
Definition int_max_str_digits : nat := 4300.

(** [str(z)] returns (and does not raise ValueError). *)
Definition str_returns (z : Z) : bool :=
  String.length (pretty (Z.abs z)) <=? int_max_str_digits.

End Backend.

(** [strip_prefix p s] is what follows [p] in [s], if [s] begins with [p]. *)
Fixpoint strip_prefix (p s : string) : option string :=
  match p, s with
  | EmptyString, _ => Some s
  | String a p', String b s' =>
      if Ascii.eqb a b then strip_prefix p' s' else None
  | String _ _, EmptyString => None
  end.





(** What nginx does with a request URI. *)
Inductive nginx_action :=
  | TryFiles (uri : string)                  (* location /: the built frontend *)
  | ProxyPass (upstream : string) (uri : string).

(** nginx.conf of the deployment guide:
    [location / { root /usr/share/nginx/html; try_files $uri $uri/ /index.html; }
     location /api/ { rewrite <regex> /$1 break;
                      proxy_pass http://backend-service:8000; ... }]
    where <regex> is [^/api/] followed by a group capturing the rest of the
    URI. The longest matching prefix location is taken; in [/api/] the URI is
    rewritten to [/] followed by the captured rest, and the rewritten URI is
    passed on.
    nginx matches locations against the normalised URI (percent-decoded, dot
    segments resolved, adjacent slashes merged): [uri] is that normalised
    URI. It is the path of the request itself when [normalised_uri] holds
    of it. *)
Definition nginx_conf (uri : string) : nginx_action :=
  match strip_prefix "/api/" uri with
  | Some rest => ProxyPass "http://backend-service:8000" ("/" +:+ rest)
  | None => TryFiles uri
  end.

(** nginx.conf of the HTTPS guide: the same locations, without the rewrite:
    [location /api/ { proxy_pass http://backend-service:8000; ... }]
    [uri] is the normalised URI, as for [nginx_conf]. *)
Definition nginx_conf_https (uri : string) : nginx_action :=
  match strip_prefix "/api/" uri with
  | Some _ => ProxyPass "http://backend-service:8000" uri
  | None => TryFiles uri
  end.

Inductive service := frontend_service | backend_service.

Global Instance service_eq_dec : EqDecision service.
Proof. solve_decision. Defined.

(** ingress.yaml of the HTTPS guide:
    [defaultBackend: frontend-service:80
     rules: - path: /api/*  -> backend-service:8000
            - path: /*      -> frontend-service:80] *)
Definition ingress (path : string) : service * N :=
  if String.prefix "/api/" path then (backend_service, 8000%N)
  else if String.prefix "/" path then (frontend_service, 80%N)
  else (frontend_service, 80%N).

(** The reply of the HTTPS deployment to a request, where the code shown
    determines it: the ingress hands the request to the backend, the path and
    method are those of the endpoint and the field [number] is an integer.
    [None]: the reply depends on code that is not shown (the frontend's
    files, the validation done by [My_Number_Class]). *)
Definition https_deployment (r : Request) : option reply :=
  match ingress (url r) with
  | (backend_service, _) =>
      if decide (method r = POST /\ url r = Backend.route) then
        match body r !! "number" with
        | Some (VNum z) =>
            Some (HttpReply 200 (Backend.square {| Backend.number := z |}))
        | _ => None
        end
      else None
  | (frontend_service, _) => None
  end.

(** Decimal digits. *)
Definition is_digit (c : Ascii.ascii) : bool :=
  (48 <=? Ascii.nat_of_ascii c) && (Ascii.nat_of_ascii c <=? 57).

Fixpoint all_digits (s : string) : bool :=
  match s with
  | EmptyString => true
  | String c s' => is_digit c && all_digits s'
  end.

(** * Properties *)

(** ** Steps of the event loop *)

Section StepFacts.

Variable h : World -> World.

Lemma run_nil w : run h [] w = w.
Proof. reflexivity. Qed.

Lemma run_cons e es w : run h (e :: es) w = run h es (step h e w).
Proof. reflexivity. Qed.

Lemma run_app es1 es2 w : run h (es1 ++ es2) w = run h es2 (run h es1 w).
Proof. unfold run. apply foldl_app. Qed.

Lemma run_snoc es e w : run h (es ++ [e]) w = step h e (run h es w).
Proof. rewrite run_app. reflexivity. Qed.

Lemma step_settle_pending id r k w :
  pending w !! id = Some k ->
  step h (Settle id r) w =
    {| ui := k (axios_settle r) (ui w);
       network := network w;
       pending := delete id (pending w) |}.
Proof. intros Hk. unfold step. rewrite Hk. reflexivity. Qed.

Lemma step_settle_unknown id r w :
  pending w !! id = None -> step h (Settle id r) w = w.
Proof. intros Hk. unfold step. rewrite Hk. reflexivity. Qed.

End StepFacts.

(** ** What axios settles with *)

Lemma validateStatus_range code :
  validateStatus code = true <-> 200 <= code < 300.
Proof.
  unfold validateStatus. rewrite andb_true_iff, Nat.leb_le, Nat.ltb_lt. lia.
Qed.

Lemma axios_settle_2xx code payload :
  validateStatus code = true ->
  axios_settle (HttpReply code payload) =
    Fulfilled {| status := code; data := payload |}.
Proof. intros H. simpl. rewrite H. reflexivity. Qed.

Lemma axios_settle_fulfilled_inv r res :
  axios_settle r = Fulfilled res ->
  r = HttpReply (status res) (data res) /\ validateStatus (status res) = true.
Proof.
  destruct r as [code payload|reason]; simpl; [|discriminate].
  destruct (validateStatus code) eqn:E; [|discriminate].
  intros [= <-]. auto.
Qed.

(** ** The callback chains *)

Lemma app_onSettled_fulfilled res u :
  AppJs.onSettled (Fulfilled res) u = sample (data res) u.
Proof. reflexivity. Qed.

Lemma app_onSettled_rejected e u :
  AppJs.onSettled (Rejected e) u = report_unhandled e u.
Proof. reflexivity. Qed.

Lemma guide_onSettled_fulfilled res u :
  Guide.onSettled (Fulfilled res) u = sample (data res) u.
Proof. reflexivity. Qed.

Lemma guide_onSettled_rejected e u :
  Guide.onSettled (Rejected e) u =
    sample ("Error: " +:+ message e) (console_error "Error:" e u).
Proof. reflexivity. Qed.

Lemma guide_onSettled_rendering o u :
  text_a (Guide.onSettled o u) = rendering o /\
  renders (Guide.onSettled o u) = renders u ++ [rendering o] /\
  unhandled (Guide.onSettled o u) = unhandled u /\
  number (Guide.onSettled o u) = number u.
Proof. destruct o; repeat split; reflexivity. Qed.

Lemma app_onSettled_number o u : number (AppJs.onSettled o u) = number u.
Proof. destruct o; reflexivity. Qed.

Lemma shows_latest_sample s u : shows_latest (sample s u).
Proof. unfold shows_latest. simpl. rewrite last_snoc. reflexivity. Qed.

Lemma app_onSettled_shows o u :
  shows_latest u -> shows_latest (AppJs.onSettled o u).
Proof. destruct o; [intros _; apply shows_latest_sample | auto]. Qed.

Lemma guide_onSettled_shows o u : shows_latest (Guide.onSettled o u).
Proof. destruct o; apply shows_latest_sample. Qed.

(** ** Invariants of the event loop, for a handler of the common shape *)

Section Posting.

Variable url' : string.
Variable mk : string -> gmap string jsval.
Variable hdrs : gmap string string.
Variable k : chain.

Local Abbreviation handler := (posting url' mk hdrs k).

Lemma callbacks_are_init : callbacks_are k init.
Proof. intros id k' H. unfold init in H. simpl in H. by rewrite lookup_empty in H. Qed.

Lemma callbacks_are_click w :
  callbacks_are k w -> callbacks_are k (handler w).
Proof.
  intros Hw id k'. unfold handler, posting, axios_post. cbn [pending network].
  rewrite length_app. cbn [length]. rewrite lookup_insert.
  case_decide as Hid.
  - intros [= <-]. subst id. split; [done | lia].
  - intros H. destruct (Hw _ _ H). split; [done | lia].
Qed.

Lemma callbacks_are_step e w :
  callbacks_are k w -> callbacks_are k (step handler e w).
Proof.
  intros Hw. destruct e as [s| |id r].
  - exact Hw.
  - by apply callbacks_are_click.
  - unfold step. destruct (pending w !! id) as [k0|] eqn:E; [|exact Hw].
    intros id' k'. cbn [pending network]. rewrite lookup_delete.
    case_decide; [done|]. apply Hw.
Qed.

Lemma callbacks_are_run es w :
  callbacks_are k w -> callbacks_are k (run handler es w).
Proof.
  revert w. induction es as [|e es IH]; intros w Hw; [exact Hw|].
  rewrite run_cons. apply IH. by apply callbacks_are_step.
Qed.

(** The request of a click is new: no outstanding call has its number. *)
Lemma click_fresh w :
  callbacks_are k w -> pending w !! length (network w) = None.
Proof.
  intros Hw. destruct (pending w !! length (network w)) as [k'|] eqn:E; [|done].
  destruct (Hw _ _ E). lia.
Qed.

Lemma click_pending w :
  pending (handler w) !! length (network w) = Some k.
Proof. unfold handler, posting, axios_post. cbn [pending]. apply lookup_insert_eq. Qed.

Lemma click_ui w : ui (handler w) = ui w.
Proof. reflexivity. Qed.

Lemma click_network w :
  network (handler w) = network w ++
    [ {| method := POST; url := url'; body := mk (number (ui w));
         headers := setContentTypeIfUnset "application/json" hdrs |} ].
Proof. reflexivity. Qed.

(** Only a [Click] puts a request on the network. *)
Lemma network_step e w :
  network (step handler e w) =
    match e with
    | Click => network (handler w)
    | _ => network w
    end.
Proof.
  destruct e as [s| |id r]; try reflexivity.
  unfold step. by destruct (pending w !! id).
Qed.

Section Frame.

Hypothesis k_number : forall o u, number (k o u) = number u.

Lemma number_step e w :
  callbacks_are k w ->
  number (ui (step handler e w)) =
    match e with Edit s => s | _ => number (ui w) end.
Proof.
  intros Hw. destruct e as [s| |id r]; try reflexivity.
  unfold step. destruct (pending w !! id) as [k0|] eqn:E; [|done].
  destruct (Hw _ _ E) as [-> _]. cbn [ui]. apply k_number.
Qed.

Lemma number_run es w :
  callbacks_are k w ->
  number (ui (run handler es w)) = last_edit es (number (ui w)).
Proof.
  revert w. induction es as [|e es IH]; intros w Hw; [reflexivity|].
  rewrite run_cons, IH by (by apply callbacks_are_step).
  rewrite number_step by done. unfold last_edit. cbn [foldl].
  by destruct e.
Qed.

End Frame.

Section Display.

Hypothesis k_shows : forall o u, shows_latest u -> shows_latest (k o u).

Lemma shows_latest_step e w :
  callbacks_are k w -> shows_latest (ui w) ->
  shows_latest (ui (step handler e w)).
Proof.
  intros Hw Hs. destruct e as [s| |id r]; try exact Hs.
  unfold step. destruct (pending w !! id) as [k0|] eqn:E; [|done].
  destruct (Hw _ _ E) as [-> _]. cbn [ui]. by apply k_shows.
Qed.

Lemma shows_latest_run es w :
  callbacks_are k w -> shows_latest (ui w) ->
  shows_latest (ui (run handler es w)).
Proof.
  revert w. induction es as [|e es IH]; intros w Hw Hs; [exact Hs|].
  rewrite run_cons. apply IH.
  - by apply callbacks_are_step.
  - by apply shows_latest_step.
Qed.

End Display.

End Posting.

(** The handlers are instances of the common shape. *)

Lemma app_is_posting :
  AppJs.squareHandler =
    posting "/square" (fun s => {[ "number" := VStr s ]}) ∅ AppJs.onSettled.
Proof. reflexivity. Qed.

Lemma guide_is_posting numberInt :
  Guide.squareHandler numberInt =
    posting "/api/square" (fun s => {[ "number" := numberInt s ]})
      {[ "Content-Type" := "application/json" ]} Guide.onSettled.
Proof. reflexivity. Qed.

Lemma app_callbacks es : callbacks_are AppJs.onSettled (app_run es init).
Proof.
  unfold app_run. rewrite app_is_posting.
  apply callbacks_are_run, callbacks_are_init.
Qed.

Lemma guide_callbacks numberInt es :
  callbacks_are Guide.onSettled (guide_run numberInt es init).
Proof.
  unfold guide_run. rewrite guide_is_posting.
  apply callbacks_are_run, callbacks_are_init.
Qed.

Lemma app_pending_chain es id :
  is_Some (pending (app_run es init) !! id) ->
  pending (app_run es init) !! id = Some AppJs.onSettled.
Proof. intros [k' Hk]. rewrite Hk. by destruct (app_callbacks es _ _ Hk) as [-> _]. Qed.

Lemma guide_pending_chain numberInt es id :
  is_Some (pending (guide_run numberInt es init) !! id) ->
  pending (guide_run numberInt es init) !! id = Some Guide.onSettled.
Proof.
  intros [k' Hk]. rewrite Hk.
  by destruct (guide_callbacks numberInt es _ _ Hk) as [-> _].
Qed.

(** ** Requests put on the network *)

Section PostingNetwork.

Variable url' : string.
Variable mk : string -> gmap string jsval.
Variable hdrs : gmap string string.
Variable k : chain.
Variable P : Request -> Prop.

Hypothesis P_request : forall s,
  P {| method := POST; url := url'; body := mk s;
       headers := setContentTypeIfUnset "application/json" hdrs |}.

Lemma network_length_run es w :
  length (network (run (posting url' mk hdrs k) es w)) =
    length (network w) + clicks es.
Proof.
  revert w. induction es as [|e es IH]; intros w.
  - simpl. lia.
  - rewrite run_cons, IH, network_step.
    destruct e; cbn [clicks]; try lia.
    rewrite click_network, length_app. simpl. lia.
Qed.

Lemma network_Forall_run es w :
  Forall P (network w) ->
  Forall P (network (run (posting url' mk hdrs k) es w)).
Proof.
  revert w. induction es as [|e es IH]; intros w Hw; [exact Hw|].
  rewrite run_cons. apply IH. rewrite network_step.
  destruct e; try exact Hw.
  rewrite click_network. apply Forall_app. split; [exact Hw|].
  constructor; [apply P_request | constructor].
Qed.

End PostingNetwork.

Lemma app_request_shape s :
  is_square_post "/square"
    {| method := POST; url := "/square"; body := {[ "number" := VStr s ]};
       headers := setContentTypeIfUnset "application/json" ∅ |}.
Proof.
  unfold is_square_post. cbn [method url body headers].
  rewrite dom_singleton_L. repeat split.
Qed.

Lemma guide_request_shape v :
  is_square_post "/api/square"
    {| method := POST; url := "/api/square"; body := {[ "number" := v ]};
       headers := setContentTypeIfUnset "application/json"
                    {[ "Content-Type" := "application/json" ]} |}.
Proof.
  unfold is_square_post. cbn [method url body headers].
  rewrite dom_singleton_L. repeat split.
Qed.

(** ** The input controller *)

(** C5: whatever string reaches [onChange], the stored [number] afterwards is
    exactly that string; the replacement is unconditional (any previous state,
    either handler, empty and non-numeric strings included) and touches nothing
    else. *)
Theorem onEdit_stores_exactly (h : World -> World) (s : string) (w : World) :
  number (ui (step h (Edit s) w)) = s /\
  text_a (ui (step h (Edit s) w)) = text_a (ui w) /\
  renders (ui (step h (Edit s) w)) = renders (ui w) /\
  network (step h (Edit s) w) = network w /\
  pending (step h (Edit s) w) = pending w /\
  (forall es, number (ui (run h (es ++ [Edit s]) w)) = s).
Proof.
  repeat split. intros es. rewrite run_snoc. reflexivity.
Qed.

Example onEdit_keeps_blanks :
  number (ui (app_run [Edit "  007 "] init)) = "  007 ".
Proof. reflexivity. Qed.

Example onEdit_accepts_empty_and_text :
  number (ui (app_run [Edit "12"; Edit ""] init)) = "" /\
  number (ui (app_run [Edit "12"; Edit "twelve"] init)) = "twelve".
Proof. split; reflexivity. Qed.

(** C8: a trigger reads [number] and never writes it. From the initial state,
    after any events, a [Click] or the settlement of a call (fulfilled or
    rejected) leaves [number] as it was; only [Edit] changes it, so after a
    whole run [number] is the string typed last. Both handlers. *)
Theorem trigger_never_mutates_number :
  (forall es e,
     number (ui (step AppJs.squareHandler e (app_run es init))) =
       match e with
       | Edit s => s
       | _ => number (ui (app_run es init))
       end) /\
  (forall numberInt es e,
     number (ui (step (Guide.squareHandler numberInt) e
                   (guide_run numberInt es init))) =
       match e with
       | Edit s => s
       | _ => number (ui (guide_run numberInt es init))
       end) /\
  (forall es, number (ui (app_run es init)) = last_edit es "") /\
  (forall numberInt es,
     number (ui (guide_run numberInt es init)) = last_edit es "").
Proof.
  split; [|split; [|split]].
  - intros es e. rewrite app_is_posting.
    apply number_step; [apply app_onSettled_number|].
    apply app_callbacks.
  - intros numberInt es e. rewrite guide_is_posting.
    apply number_step; [intros o u; apply guide_onSettled_rendering|].
    apply guide_callbacks.
  - intros es. unfold app_run. rewrite app_is_posting.
    apply (number_run _ _ _ _ app_onSettled_number), callbacks_are_init.
  - intros numberInt es. unfold guide_run. rewrite guide_is_posting.
    apply number_run; [intros o u; apply guide_onSettled_rendering|].
    apply callbacks_are_init.
Qed.

(** ** The renderer *)

Lemma sample_fold rs u :
  text_a (foldl (fun u r => sample r u) u rs) = default (text_a u) (last rs).
Proof.
  revert u. induction rs as [|r rs IH]; intros u; [reflexivity|].
  cbn [foldl]. rewrite IH. destruct rs as [|r' rs]; [reflexivity|].
  change (last (r :: r' :: rs)) with (last (r' :: rs)).
  destruct (last (r' :: rs)) as [x|] eqn:E; [reflexivity|].
  by apply last_None in E.
Qed.

Lemma html_text_plain s : plain_text s = true -> html_text s = Some s.
Proof.
  induction s as [|c s IH]; [reflexivity|]. cbn [plain_text html_text].
  intros [Hc Hs]%andb_true_iff. rewrite Hc, (IH Hs). reflexivity.
Qed.


Lemma displayed_sample r u : displayed (sample r u) = html_text r.
Proof. reflexivity. Qed.

(** C10 as stated fails: after [sample] has rendered a string with a
    character reference, the element does not show exactly that string. *)
Lemma rendered_markup_not_shown_verbatim :
  text_a (sample "1 &lt; 2" (ui init)) = "1 &lt; 2" /\
  displayed (sample "1 &lt; 2" (ui init)) = Some "1 < 2" /\
  displayed (sample "1 &lt; 2" (ui init)) <> Some "1 &lt; 2".
Proof. repeat split. intros H. discriminate H. Qed.

(** C10, amended: every call of [sample] overwrites the element: after any
    sequence of renders its markup is the string rendered last and what it
    shows is determined by that last string alone (the string itself when it
    is plain text, its parse as HTML otherwise); earlier results never persist
    or accumulate. In every state the program reaches, the markup of the
    element is the argument of the latest call of [sample] (the empty initial
    text if there was none). *)
Theorem render_overwrites_display :
  (forall rs u,
     text_a (foldl (fun u r => sample r u) u rs) = default (text_a u) (last rs)) /\
  (forall rs r u,
     displayed (foldl (fun u r => sample r u) u (rs ++ [r])) = html_text r /\
     displayed (foldl (fun u r => sample r u) u (rs ++ [r])) =
       displayed (sample r u) /\
     if plain_text r
     then displayed (foldl (fun u r => sample r u) u (rs ++ [r])) = Some r
     else True) /\
  (forall es, shows_latest (ui (app_run es init))) /\
  (forall numberInt es, shows_latest (ui (guide_run numberInt es init))).
Proof.
  split; [exact sample_fold|]. split; [|split].
  - intros rs r u.
    assert (H : displayed (foldl (fun u r => sample r u) u (rs ++ [r])) = html_text r).
    { unfold displayed. by rewrite sample_fold, last_snoc. }
    split; [exact H|]. split; [by rewrite H|].
    destruct (plain_text r) eqn:Hp; [|done]. rewrite H. by apply html_text_plain.
  - intros es. unfold app_run. rewrite app_is_posting.
    apply shows_latest_run; [apply app_onSettled_shows| apply callbacks_are_init |reflexivity].
  - intros numberInt es. unfold guide_run. rewrite guide_is_posting.
    apply shows_latest_run;
      [intros o u _; apply guide_onSettled_shows| apply callbacks_are_init |reflexivity].
Qed.

(** ** The dispatcher: what a trigger sends *)

(** C7: every trigger puts exactly one request on the network and no other
    event puts any; the request is a POST to the squaring path, its JSON body
    has the single field [number] holding the number to square, and it carries
    [Content-Type: application/json] (set by the guide's handler itself, and by
    axios for the object payload of App.js). Both handlers. *)
Theorem trigger_posts_exactly_once :
  (forall w, exists r,
     network (step AppJs.squareHandler Click w) = network w ++ [r] /\
     is_square_post "/square" r /\
     body r !! "number" = Some (VStr (number (ui w)))) /\
  (forall numberInt w, exists r,
     network (step (Guide.squareHandler numberInt) Click w) = network w ++ [r] /\
     is_square_post "/api/square" r /\
     body r !! "number" = Some (numberInt (number (ui w)))) /\
  (forall es,
     length (network (app_run es init)) = clicks es /\
     Forall (is_square_post "/square") (network (app_run es init))) /\
  (forall numberInt es,
     length (network (guide_run numberInt es init)) = clicks es /\
     Forall (is_square_post "/api/square")
       (network (guide_run numberInt es init))).
Proof.
  split; [|split; [|split]].
  - intros w. eexists. split; [reflexivity|]. split.
    + apply app_request_shape.
    + cbn [body]. apply lookup_singleton_eq.
  - intros numberInt w. eexists. split; [reflexivity|]. split.
    + apply guide_request_shape.
    + cbn [body]. apply lookup_singleton_eq.
  - intros es. unfold app_run. rewrite app_is_posting. split.
    + by rewrite network_length_run.
    + apply network_Forall_run; [apply app_request_shape | constructor].
  - intros numberInt es. unfold guide_run. rewrite guide_is_posting. split.
    + by rewrite network_length_run.
    + apply network_Forall_run; [intros s; apply guide_request_shape | constructor].
Qed.

Example two_clicks_two_posts :
  Forall (is_square_post "/square")
    (network (app_run [Edit "4"; Click; Edit "x"; Click] init)) /\
  url <$> network (app_run [Edit "4"; Click; Edit "x"; Click] init) =
    ["/square"; "/square"] /\
  (fun r => body r !! "number") <$>
      network (app_run [Edit "4"; Click; Edit "x"; Click] init) =
    [Some (VStr "4"); Some (VStr "x")].
Proof.
  split; [|split; reflexivity].
  apply (bool_decide_unpack _). vm_compute. exact I.
Qed.

(** C2 as stated fails at the guide's call site: with ["5"] in the input field
    and [numberInt] bound to the number 5, the [number] field of the request
    is the number, not the raw string. *)
Lemma guide_sends_numberInt_not_raw_string :
  number (ui (guide_run (fun _ => VNum 5) [Edit "5"; Click] init)) = "5" /\
  (last (network (guide_run (fun _ => VNum 5) [Edit "5"; Click] init))
     ≫= fun r => body r !! "number") = Some (VNum 5) /\
  (last (network (guide_run (fun _ => VNum 5) [Edit "5"; Click] init))
     ≫= fun r => body r !! "number") <> Some (VStr "5").
Proof. repeat split. intros H. discriminate H. Qed.

(** C2, amended: for every string typed into the field, empty and non-numeric
    ones included, the next trigger issues the request and leaves the call
    outstanding; nothing is parsed or checked before sending. In App.js the
    [number] field is the raw string itself; in the guide's handler it is
    whatever [numberInt] holds for that input. *)
Theorem payload_sent_without_validation :
  (forall s w,
     let w' := step AppJs.squareHandler Click
                 (step AppJs.squareHandler (Edit s) w) in
     network w' = network w ++
       [ {| method := POST; url := "/square";
            body := {[ "number" := VStr s ]};
            headers := {[ "Content-Type" := "application/json" ]} |} ] /\
     pending w' !! length (network w) = Some AppJs.onSettled) /\
  (forall numberInt s w,
     let w' := step (Guide.squareHandler numberInt) Click
                 (step (Guide.squareHandler numberInt) (Edit s) w) in
     network w' = network w ++
       [ {| method := POST; url := "/api/square";
            body := {[ "number" := numberInt s ]};
            headers := {[ "Content-Type" := "application/json" ]} |} ] /\
     pending w' !! length (network w) = Some Guide.onSettled).
Proof.
  split.
  - intros s w. split; [reflexivity|].
    cbn [step AppJs.squareHandler axios_post pending network]. apply lookup_insert_eq.
  - intros numberInt s w. split; [reflexivity|].
    cbn [step Guide.squareHandler axios_post pending network]. apply lookup_insert_eq.
Qed.

Example app_forwards_non_numeric_text :
  body <$> network (app_run [Edit "abc"; Click; Edit ""; Click] init) =
    [ {[ "number" := VStr "abc" ]}; {[ "number" := VStr "" ]} ].
Proof. reflexivity. Qed.

(** ** The dispatcher: what a settled call renders *)


Lemma axios_settle_rejected_inv r e :
  axios_settle r = Rejected e ->
  (exists reason, r = NetworkFailure reason /\ message e = reason) \/
  (exists code payload, r = HttpReply code payload /\
     validateStatus code = false /\
     message e = "Request failed with status code " +:+ pretty code).
Proof.
  destruct r as [code payload|reason]; simpl.
  - destruct (validateStatus code) eqn:E; [discriminate|].
    intros [= <-]. right. by exists code, payload.
  - intros [= <-]. left. by exists reason.
Qed.

(** C4 as stated fails: a successful response whose body carries a character
    reference is not displayed verbatim: [sample] assigns it to [innerHTML]
    and the element shows the parsed text. *)
Lemma success_body_with_markup_not_verbatim :
  axios_settle (HttpReply 200 "1 &lt; 2") =
    Fulfilled {| status := 200; data := "1 &lt; 2" |} /\
  displayed (ui (app_run [Edit "1"; Click; Settle 0 (HttpReply 200 "1 &lt; 2")] init))
    = Some "1 < 2" /\
  displayed (ui (app_run [Edit "1"; Click; Settle 0 (HttpReply 200 "1 &lt; 2")] init))
    <> Some "1 &lt; 2".
Proof. repeat split. intros H. discriminate H. Qed.

(** C4, amended: for every successful response (a 2xx reply to an outstanding
    call) whose data is a string of plain text (no [<], no [&], no NUL or CR),
    the body is handed to [sample] as it is and the element shows it verbatim,
    in both handlers; with ["5"] typed and the service answering ["25"], the
    display after the call resolves is exactly ["25"]. *)
Theorem success_displays_plain_body_verbatim
    (numberInt : string -> jsval) (es : list event) (id code : nat)
    (payload : string) :
  validateStatus code = true ->
  plain_text payload = true ->
  (is_Some (pending (app_run es init) !! id) ->
   let w := app_run es init in
   let w' := step AppJs.squareHandler (Settle id (HttpReply code payload)) w in
   displayed (ui w') = Some payload /\
   text_a (ui w') = payload /\
   renders (ui w') = renders (ui w) ++ [payload] /\
   unhandled (ui w') = unhandled (ui w)) /\
  (is_Some (pending (guide_run numberInt es init) !! id) ->
   let w := guide_run numberInt es init in
   let w' := step (Guide.squareHandler numberInt)
               (Settle id (HttpReply code payload)) w in
   displayed (ui w') = Some payload /\
   text_a (ui w') = payload /\
   renders (ui w') = renders (ui w) ++ [payload] /\
   unhandled (ui w') = unhandled (ui w)) /\
  displayed (ui (app_run [Edit "5"; Click; Settle 0 (HttpReply 200 "25")] init))
    = Some "25" /\
  displayed (ui (guide_run numberInt
                   [Edit "5"; Click; Settle 0 (HttpReply 200 "25")] init))
    = Some "25".
Proof.
  intros Hok Hplain. split; [|split; [|split; reflexivity]].
  - intros Hp w w'. subst w'.
    rewrite (step_settle_pending _ _ _ _ _ (app_pending_chain _ _ Hp)).
    cbn [ui]. rewrite (axios_settle_2xx _ _ Hok).
    rewrite app_onSettled_fulfilled, displayed_sample. cbn [data].
    split; [by apply html_text_plain | repeat split].
  - intros Hp w w'. subst w'.
    rewrite (step_settle_pending _ _ _ _ _ (guide_pending_chain _ _ _ Hp)).
    cbn [ui]. rewrite (axios_settle_2xx _ _ Hok).
    rewrite guide_onSettled_fulfilled, displayed_sample. cbn [data].
    split; [by apply html_text_plain | repeat split].
Qed.

Lemma success_displays_plain_body_verbatim_witness :
  validateStatus 200 = true /\
  plain_text "25" = true /\
  is_Some (pending (app_run [Edit "5"; Click] init) !! 0) /\
  is_Some (pending (guide_run (fun _ => VNum 5) [Edit "5"; Click] init) !! 0) /\
  displayed (ui (step AppJs.squareHandler (Settle 0 (HttpReply 200 "25"))
                   (app_run [Edit "5"; Click] init))) = Some "25" /\
  displayed (ui (step (Guide.squareHandler (fun _ => VNum 5))
                   (Settle 0 (HttpReply 200 "25"))
                   (guide_run (fun _ => VNum 5) [Edit "5"; Click] init))) = Some "25".
Proof.
  split; [reflexivity|]. split; [reflexivity|].
  split; [eexists; reflexivity|]. split; [eexists; reflexivity|].
  pose proof (success_displays_plain_body_verbatim (fun _ => VNum 5)
                [Edit "5"; Click] 0 200 "25") as H.
  destruct (H eq_refl eq_refl) as (Happ & Hguide & _). split.
  - apply Happ. eexists; reflexivity.
  - apply Hguide. eexists; reflexivity.
Defined.





(** ** Failed calls *)

(** In App.js the chain ends after [.then]: a rejection of an outstanding call
    runs no callback of the program and ends as an unhandled rejection. *)
Lemma app_rejection_reaches_runtime es id r e :
  is_Some (pending (app_run es init) !! id) ->
  axios_settle r = Rejected e ->
  ui (step AppJs.squareHandler (Settle id r) (app_run es init)) =
    report_unhandled e (ui (app_run es init)).
Proof.
  intros Hp Hr.
  rewrite (step_settle_pending _ _ _ _ _ (app_pending_chain _ _ Hp)).
  cbn [ui]. by rewrite Hr.
Qed.

(** The guide's chain ends with [.catch]: whatever the settlement, [sample] is
    called exactly once and nothing is left unhandled. *)
Lemma guide_settlement_rendered_once numberInt es id r :
  is_Some (pending (guide_run numberInt es init) !! id) ->
  let w := guide_run numberInt es init in
  let w' := step (Guide.squareHandler numberInt) (Settle id r) w in
  renders (ui w') = renders (ui w) ++ [rendering (axios_settle r)] /\
  text_a (ui w') = rendering (axios_settle r) /\
  unhandled (ui w') = unhandled (ui w) /\
  pending w' !! id = None.
Proof.
  intros Hp w w'. subst w'.
  rewrite (step_settle_pending _ _ _ _ _ (guide_pending_chain _ _ _ Hp)).
  cbn [ui pending].
  destruct (guide_onSettled_rendering (axios_settle r) (ui w)) as (Ht & Hr & Hu & _).
  repeat split; try done. apply lookup_delete_eq.
Qed.

(** A call settles once: a second settlement of the same call does nothing. *)
Lemma settle_twice_noop h id r1 r2 w :
  step h (Settle id r2) (step h (Settle id r1) w) = step h (Settle id r1) w.
Proof.
  destruct (pending w !! id) as [k|] eqn:E.
  - rewrite (step_settle_pending _ _ _ _ _ E).
    apply step_settle_unknown. cbn [pending]. apply lookup_delete_eq.
  - rewrite (step_settle_unknown _ _ _ _ E). by apply step_settle_unknown.
Qed.

(** With the guide's handler, of two outstanding calls the one settled last
    determines the display, whichever was issued first and whatever the
    outcomes; with App.js this holds when the call settled last succeeded. *)
Lemma guide_last_settled_wins numberInt es id1 id2 r1 r2 :
  id1 <> id2 ->
  is_Some (pending (guide_run numberInt es init) !! id1) ->
  text_a (ui (run (Guide.squareHandler numberInt)
                [Settle id2 r2; Settle id1 r1]
                (guide_run numberInt es init))) =
    rendering (axios_settle r1).
Proof.
  intros Hne Hp. apply guide_pending_chain in Hp.
  rewrite run_cons, run_cons, run_nil.
  set (w2 := step _ (Settle id2 r2) _).
  assert (Hp2 : pending w2 !! id1 = Some Guide.onSettled).
  { subst w2. unfold step.
    destruct (pending (guide_run numberInt es init) !! id2); [|exact Hp].
    cbn [pending]. by rewrite lookup_delete_ne. }
  rewrite (step_settle_pending _ _ _ _ _ Hp2). cbn [ui].
  apply guide_onSettled_rendering.
Qed.

Lemma app_last_fulfilled_wins es id1 id2 r1 r2 res :
  id1 <> id2 ->
  is_Some (pending (app_run es init) !! id1) ->
  axios_settle r1 = Fulfilled res ->
  text_a (ui (run AppJs.squareHandler [Settle id2 r2; Settle id1 r1]
                (app_run es init))) = data res.
Proof.
  intros Hne Hp Hr. apply app_pending_chain in Hp.
  rewrite run_cons, run_cons, run_nil.
  set (w2 := step _ (Settle id2 r2) _).
  assert (Hp2 : pending w2 !! id1 = Some AppJs.onSettled).
  { subst w2. unfold step.
    destruct (pending (app_run es init) !! id2); [|exact Hp].
    cbn [pending]. by rewrite lookup_delete_ne. }
  rewrite (step_settle_pending _ _ _ _ _ Hp2). cbn [ui].
  by rewrite Hr.
Qed.

(** C1: App.js, lines 14-18, has no [.catch]. A trigger whose call gets no
    reply, or a reply outside 2xx, is not turned into a failure result:
    [sample] is never called, the display keeps its text and the rejection
    ends as an unhandled one. The guide's handler, on the same events,
    renders the error and leaves nothing unhandled. *)
Theorem appjs_failed_call_is_not_recovered :
  let transport := [Edit "3"; Click; Settle 0 (NetworkFailure "Network Error")] in
  let server := [Edit "3"; Click; Settle 0 (HttpReply 500 "Internal Server Error")] in
  (unhandled (ui (app_run transport init)) = [ {| message := "Network Error" |} ] /\
   renders (ui (app_run transport init)) = [] /\
   text_a (ui (app_run transport init)) = "") /\
  (unhandled (ui (app_run server init)) =
     [ {| message := "Request failed with status code 500" |} ] /\
   renders (ui (app_run server init)) = [] /\
   text_a (ui (app_run server init)) = "") /\
  (forall numberInt,
     unhandled (ui (guide_run numberInt transport init)) = [] /\
     renders (ui (guide_run numberInt transport init)) = ["Error: Network Error"] /\
     unhandled (ui (guide_run numberInt server init)) = [] /\
     renders (ui (guide_run numberInt server init)) =
       ["Error: Request failed with status code 500"]).
Proof. repeat split. Qed.

(** C3: in App.js a trigger whose call fails produces no result and no render:
    once the call has come back with 404 nothing is outstanding any more
    and [sample] has been called zero times, while the same trigger with a
    200 reply calls it once. *)
Theorem appjs_failed_trigger_renders_nothing :
  let failed := app_run [Edit "7"; Click; Settle 0 (HttpReply 404 "Not Found")] init in
  let served := app_run [Edit "7"; Click; Settle 0 (HttpReply 200 "49")] init in
  length (renders (ui failed)) = 0 /\
  pending failed !! 0 = None /\
  length (network failed) = 1 /\
  length (renders (ui served)) = 1 /\
  pending served !! 0 = None.
Proof. repeat split. Qed.

(** C9: in App.js, two overlapping triggers; the call issued second is served
    first (["9"]), the call issued first then fails. The display still shows
    the result of the second call: the call that resolved last left no trace on
    the page. With the guide's handler the same events end with the failure
    of the first call on display. *)
Theorem appjs_last_resolved_failure_not_shown :
  let es := [Edit "2"; Click; Edit "3"; Click;
             Settle 1 (HttpReply 200 "9");
             Settle 0 (NetworkFailure "Network Error")] in
  text_a (ui (app_run es init)) = "9" /\
  renders (ui (app_run es init)) = ["9"] /\
  unhandled (ui (app_run es init)) = [ {| message := "Network Error" |} ] /\
  (forall numberInt,
     text_a (ui (guide_run numberInt es init)) = "Error: Network Error").
Proof. repeat split. Qed.

(** * Further properties of the client *)

(** ** What the requests of a run carry *)

Section PostingTrace.

Variable url' : string.
Variable mk : string -> gmap string jsval.
Variable hdrs : gmap string string.
Variable k : chain.

Local Abbreviation handler := (posting url' mk hdrs k).

Hypothesis k_number : forall o u, number (k o u) = number u.

Lemma bodies_run es w :
  callbacks_are k w ->
  body <$> network (run handler es w) =
    (body <$> network w) ++ (mk <$> inputs_at_clicks es (number (ui w))).
Proof.
  revert w. induction es as [|e es IH]; intros w Hw.
  - simpl. by rewrite app_nil_r.
  - rewrite run_cons, IH by (by apply callbacks_are_step).
    rewrite network_step, (number_step _ _ _ _ k_number) by done.
    destruct e as [s| |id r]; cbn [inputs_at_clicks]; try done.
    rewrite click_network, fmap_app, <- app_assoc. reflexivity.
Qed.

End PostingTrace.

(** X1: the requests sent during a run carry, in order, the contents the
    input field had at the clicks: each click reads the field as it is then
    (empty if nothing was typed yet), keystrokes after a click do not change
    the request already sent, and settlements do not change what later
    clicks send. App.js sends the strings themselves, the guide's handler
    [numberInt] of them. *)
Theorem requests_carry_input_at_click :
  (forall es,
     body <$> network (app_run es init) =
       (fun s => {[ "number" := VStr s ]}) <$> inputs_at_clicks es "") /\
  (forall numberInt es,
     body <$> network (guide_run numberInt es init) =
       (fun s => {[ "number" := numberInt s ]}) <$> inputs_at_clicks es "").
Proof.
  split.
  - intros es. unfold app_run. rewrite app_is_posting.
    rewrite (bodies_run _ _ _ _ app_onSettled_number) by apply callbacks_are_init.
    reflexivity.
  - intros numberInt es. unfold guide_run. rewrite guide_is_posting.
    rewrite bodies_run;
      [reflexivity | intros o u; apply guide_onSettled_rendering
      | apply callbacks_are_init].
Qed.

Example stale_keystrokes_do_not_reach_the_request :
  body <$> network (app_run [Click; Edit "1"; Edit "12"; Click; Edit "123";
                             Settle 1 (HttpReply 200 "144"); Click] init) =
    [ {[ "number" := VStr "" ]}; {[ "number" := VStr "12" ]};
      {[ "number" := VStr "123" ]} ].
Proof. reflexivity. Qed.

(** ** Every trigger is accounted for *)

Section Accounting.

Variable url' : string.
Variable mk : string -> gmap string jsval.
Variable hdrs : gmap string string.
Variable k : chain.

Local Abbreviation handler := (posting url' mk hdrs k).

(** [c] counts the calls that have come back. *)
Variable c : UI -> nat.
Hypothesis c_settle : forall o u, c (k o u) = S (c u).
Hypothesis c_edit : forall s u, c (setNumber s u) = c u.

Lemma accounting_step e w :
  callbacks_are k w ->
  c (ui (step handler e w)) + size (pending (step handler e w)) =
    c (ui w) + size (pending w) + match e with Click => 1 | _ => 0 end.
Proof.
  intros Hw. destruct e as [s| |id r].
  - cbn [step ui pending]. rewrite c_edit. lia.
  - cbn [step]. unfold posting, axios_post. cbn [ui pending].
    rewrite map_size_insert_None by (by apply (click_fresh k)). lia.
  - unfold step. destruct (pending w !! id) as [k0|] eqn:E; [|lia].
    destruct (Hw _ _ E) as [-> _]. cbn [ui pending].
    rewrite c_settle, map_size_delete_Some by (by rewrite E).
    assert (size (pending w) <> 0); [|lia].
    apply map_size_non_empty_iff. intros Hempty.
    rewrite Hempty, lookup_empty in E. discriminate.
Qed.

Lemma accounting_run es w :
  callbacks_are k w ->
  c (ui (run handler es w)) + size (pending (run handler es w)) =
    c (ui w) + size (pending w) + clicks es.
Proof.
  revert w. induction es as [|e es IH]; intros w Hw.
  - simpl. lia.
  - rewrite run_cons, IH by (by apply callbacks_are_step).
    rewrite accounting_step by done. destruct e; cbn [clicks]; lia.
Qed.

End Accounting.

(** A property of the UI that keystrokes and the callback chain keep holds in
    every state of a run. *)
Section UiInvariant.

Variable url' : string.
Variable mk : string -> gmap string jsval.
Variable hdrs : gmap string string.
Variable k : chain.
Variable Q : UI -> Prop.

Hypothesis Q_settle : forall o u, Q u -> Q (k o u).
Hypothesis Q_edit : forall s u, Q u -> Q (setNumber s u).

Lemma ui_invariant_run es w :
  callbacks_are k w -> Q (ui w) -> Q (ui (run (posting url' mk hdrs k) es w)).
Proof.
  revert w. induction es as [|e es IH]; intros w Hw HQ; [exact HQ|].
  rewrite run_cons. apply IH; [by apply callbacks_are_step|].
  destruct e as [s| |id r].
  - by apply Q_edit.
  - exact HQ.
  - unfold step. destruct (pending w !! id) as [k0|] eqn:E; [|done].
    destruct (Hw _ _ E) as [-> _]. by apply Q_settle.
Qed.

End UiInvariant.

Lemma app_settled_count o u :
  length (renders (AppJs.onSettled o u)) + length (unhandled (AppJs.onSettled o u)) =
    S (length (renders u) + length (unhandled u)).
Proof. destruct o; simpl; rewrite length_app; simpl; lia. Qed.

Lemma guide_settled_count o u :
  length (renders (Guide.onSettled o u)) = S (length (renders u)).
Proof. destruct o; simpl; rewrite length_app; simpl; lia. Qed.

(** X2: in App.js every trigger ends in exactly one of three ways: its
    response was rendered, its rejection went unhandled, or its call is still
    outstanding. After any run the three counts add up to the number of
    clicks; nothing is ever written to the console. *)
Theorem appjs_every_trigger_accounted_for (es : list event) :
  length (renders (ui (app_run es init))) +
    length (unhandled (ui (app_run es init))) +
    size (pending (app_run es init)) = clicks es /\
  console (ui (app_run es init)) = [].
Proof.
  unfold app_run. rewrite app_is_posting. split.
  - rewrite (accounting_run _ _ _ _
               (fun u => length (renders u) + length (unhandled u))
               app_settled_count)
      by (done || apply callbacks_are_init).
    reflexivity.
  - apply (ui_invariant_run _ _ _ _ (fun u => console u = []));
      [by intros [] | done | apply callbacks_are_init | done].
Qed.

Lemma guide_never_unhandled numberInt es :
  unhandled (ui (guide_run numberInt es init)) = [].
Proof.
  unfold guide_run. rewrite guide_is_posting.
  apply (ui_invariant_run _ _ _ _ (fun u => unhandled u = []));
    [by intros [] | done | apply callbacks_are_init | done].
Qed.

(** X3: with the guide's handler every trigger is either rendered (once) or
    still outstanding: after any run the number of renders plus the number of
    outstanding calls is the number of clicks, and no rejection is ever left
    unhandled. *)
Theorem guide_every_trigger_rendered_or_outstanding
    (numberInt : string -> jsval) (es : list event) :
  length (renders (ui (guide_run numberInt es init))) +
    size (pending (guide_run numberInt es init)) = clicks es /\
  unhandled (ui (guide_run numberInt es init)) = [].
Proof.
  split; [|apply guide_never_unhandled].
  unfold guide_run. rewrite guide_is_posting.
  rewrite (accounting_run _ _ _ _ (fun u => length (renders u))
             guide_settled_count)
    by (done || apply callbacks_are_init).
  reflexivity.
Qed.

(** X4: with the guide's handler every entry of the console is the record of
    one failed call: its label is ["Error:"], and the error texts
    ["Error: " + message] of the console entries appear, in the same order,
    among the texts rendered. *)
Theorem guide_console_entries_are_rendered_errors
    (numberInt : string -> jsval) (es : list event) :
  Forall (fun p => p.1 = "Error:") (console (ui (guide_run numberInt es init))) /\
  sublist ((fun p => "Error: " +:+ message p.2) <$>
             console (ui (guide_run numberInt es init)))
          (renders (ui (guide_run numberInt es init))).
Proof.
  unfold guide_run. rewrite guide_is_posting.
  apply (ui_invariant_run _ _ _ _
           (fun u => Forall (fun p => p.1 = "Error:") (console u) /\
                     sublist ((fun p => "Error: " +:+ message p.2) <$> console u)
                             (renders u))).
  - intros [res|e] u [Hl Hs]; simpl.
    + split; [exact Hl|]. by apply sublist_inserts_r.
    + split.
      * apply Forall_app. split; [exact Hl|]. by repeat constructor.
      * rewrite fmap_app. by apply sublist_app.
  - intros s u H. exact H.
  - apply callbacks_are_init.
  - split; constructor.
Qed.

(** ** Keystrokes never change the page *)

Section Keystrokes.

Variable url' : string.
Variable mk : string -> gmap string jsval.
Variable hdrs : gmap string string.
Variable k : chain.

Local Abbreviation handler := (posting url' mk hdrs k).

Hypothesis k_page : forall o u1 u2, same_page u1 u2 -> same_page (k o u1) (k o u2).

Lemma same_calls_edit s w1 w2 :
  same_calls w1 w2 -> same_calls (step handler (Edit s) w1) w2.
Proof. intros H. exact H. Qed.

Lemma same_calls_step e w1 w2 :
  callbacks_are k w1 ->
  same_calls w1 w2 -> same_calls (step handler e w1) (step handler e w2).
Proof.
  intros Hw (Hp & Hn & Hq). destruct e as [s| |id r].
  - done.
  - cbn [step]. unfold posting, axios_post. repeat split; cbn [ui network pending];
      try apply Hp.
    + rewrite !length_app. simpl. lia.
    + by rewrite Hn, Hq.
  - unfold step. rewrite <- Hq.
    destruct (pending w1 !! id) as [k0|] eqn:E; [|done].
    destruct (Hw _ _ E) as [-> _].
    split; [|split]; cbn [ui network pending]; [by apply k_page | done | by rewrite Hq].
Qed.

Lemma same_calls_run es w1 w2 :
  callbacks_are k w1 ->
  same_calls w1 w2 ->
  same_calls (run handler es w1) (run handler (drop_edits es) w2).
Proof.
  revert w1 w2. induction es as [|e es IH]; intros w1 w2 Hw H; [exact H|].
  rewrite run_cons.
  destruct e as [s| |id r]; cbn [drop_edits].
  - apply IH; [by apply callbacks_are_step | by apply same_calls_edit].
  - rewrite run_cons. apply IH; [by apply callbacks_are_step|].
    by apply same_calls_step.
  - rewrite run_cons. apply IH; [by apply callbacks_are_step|].
    by apply same_calls_step.
Qed.

End Keystrokes.

Lemma app_onSettled_page o u1 u2 :
  same_page u1 u2 -> same_page (AppJs.onSettled o u1) (AppJs.onSettled o u2).
Proof.
  intros (Ht & Hr & Hc & Hu).
  destruct o; repeat split; simpl; congruence.
Qed.

Lemma guide_onSettled_page o u1 u2 :
  same_page u1 u2 -> same_page (Guide.onSettled o u1) (Guide.onSettled o u2).
Proof.
  intros (Ht & Hr & Hc & Hu).
  destruct o; repeat split; simpl; congruence.
Qed.

(** X5: keystrokes never change the page. Taking the [Edit] events out of a
    run leaves the display, the texts rendered, the console, the unhandled
    rejections and the outstanding calls as they are: what a settled call
    puts on the page does not depend on what was or is in the input field.
    Both handlers. *)
Theorem keystrokes_never_change_the_page :
  (forall es,
     same_page (ui (app_run es init)) (ui (app_run (drop_edits es) init)) /\
     pending (app_run es init) = pending (app_run (drop_edits es) init)) /\
  (forall numberInt es,
     same_page (ui (guide_run numberInt es init))
               (ui (guide_run numberInt (drop_edits es) init)) /\
     pending (guide_run numberInt es init) =
       pending (guide_run numberInt (drop_edits es) init)).
Proof.
  split.
  - intros es. unfold app_run. rewrite app_is_posting.
    destruct (same_calls_run "/square" (fun s => {[ "number" := VStr s ]}) ∅
                AppJs.onSettled app_onSettled_page es init init)
      as (Hp & _ & Hq); [apply callbacks_are_init | by repeat split | done].
  - intros numberInt es. unfold guide_run. rewrite guide_is_posting.
    destruct (same_calls_run "/api/square" (fun s => {[ "number" := numberInt s ]})
                {[ "Content-Type" := "application/json" ]}
                Guide.onSettled guide_onSettled_page es init init)
      as (Hp & _ & Hq); [apply callbacks_are_init | by repeat split | done].
Qed.

(** ** Where the texts on the page come from *)

Lemma app_run_snoc es e :
  app_run (es ++ [e]) init = step AppJs.squareHandler e (app_run es init).
Proof. apply run_snoc. Qed.

Lemma guide_run_snoc numberInt es e :
  guide_run numberInt (es ++ [e]) init =
    step (Guide.squareHandler numberInt) e (guide_run numberInt es init).
Proof. apply run_snoc. Qed.

(** X6: everything App.js ever renders is the body of a reply with a 2xx
    status that arrived during the run, and every unhandled rejection is the
    error of a failed reply of the run: App.js never displays a text of its
    own. *)
Theorem appjs_renders_only_successful_bodies (es : list event) :
  Forall (fun t => exists id code,
            Settle id (HttpReply code t) ∈ es /\ validateStatus code = true)
         (renders (ui (app_run es init))) /\
  Forall (fun e => exists id r, Settle id r ∈ es /\ axios_settle r = Rejected e)
         (unhandled (ui (app_run es init))).
Proof.
  induction es as [|e es [IHr IHu]] using rev_ind; [split; constructor|].
  rewrite app_run_snoc.
  assert (Hr : Forall (fun t => exists id code,
              Settle id (HttpReply code t) ∈ es ++ [e] /\ validateStatus code = true)
            (renders (ui (app_run es init)))).
  { eapply Forall_impl; [exact IHr|]. intros t (id & code & Hin & Hok).
    exists id, code. split; [|done]. apply elem_of_app. by left. }
  assert (Hu : Forall (fun e' => exists id r,
              Settle id r ∈ es ++ [e] /\ axios_settle r = Rejected e')
            (unhandled (ui (app_run es init)))).
  { eapply Forall_impl; [exact IHu|]. intros e' (id & r & Hin & Hrej).
    exists id, r. split; [|done]. apply elem_of_app. by left. }
  destruct e as [s| |id r]; try (split; assumption).
  unfold step. destruct (pending (app_run es init) !! id) as [k0|] eqn:E;
    [|split; assumption].
  destruct (app_callbacks es _ _ E) as [-> _]. cbn [ui].
  destruct (axios_settle r) as [res|err] eqn:Hs.
  - rewrite app_onSettled_fulfilled. cbn [sample renders unhandled].
    split; [|exact Hu]. apply Forall_app. split; [exact Hr|].
    constructor; [|constructor].
    apply axios_settle_fulfilled_inv in Hs as [-> Hok].
    exists id, (status res). split; [|exact Hok].
    apply elem_of_app. right. apply list_elem_of_singleton. reflexivity.
  - rewrite app_onSettled_rejected. cbn [report_unhandled renders unhandled].
    split; [exact Hr|]. apply Forall_app. split; [exact Hu|].
    constructor; [|constructor]. exists id, r. split; [|exact Hs].
    apply elem_of_app. right. apply list_elem_of_singleton. reflexivity.
Qed.

(** X7: everything the guide's handler ever renders is the rendering of a
    reply that arrived during the run: the body of a 2xx reply, or
    ["Error: "] followed by the message of a failed one. *)
Theorem guide_renders_only_replies
    (numberInt : string -> jsval) (es : list event) :
  Forall (fun t => exists id r,
            Settle id r ∈ es /\ t = rendering (axios_settle r))
         (renders (ui (guide_run numberInt es init))).
Proof.
  induction es as [|e es IH] using rev_ind; [constructor|].
  rewrite guide_run_snoc.
  assert (Hr : Forall (fun t => exists id r,
              Settle id r ∈ es ++ [e] /\ t = rendering (axios_settle r))
            (renders (ui (guide_run numberInt es init)))).
  { eapply Forall_impl; [exact IH|]. intros t (id & r & Hin & Ht).
    exists id, r. split; [|done]. apply elem_of_app. by left. }
  destruct e as [s| |id r]; try assumption.
  unfold step. destruct (pending (guide_run numberInt es init) !! id) as [k0|] eqn:E;
    [|assumption].
  destruct (guide_callbacks numberInt es _ _ E) as [-> _]. cbn [ui].
  destruct (guide_onSettled_rendering (axios_settle r)
              (ui (guide_run numberInt es init))) as (_ & -> & _).
  apply Forall_app. split; [exact Hr|]. constructor; [|constructor].
  exists id, r. split; [|reflexivity].
  apply elem_of_app. right. apply list_elem_of_singleton. reflexivity.
Qed.

(** ** The order in which calls settle *)

Section SettleOrder.

Variable h : World -> World.
Variable k : chain.

Hypothesis k_commute : forall o1 o2 u,
  same_logs (k o1 (k o2 u)) (k o2 (k o1 u)).

Lemma same_logs_refl u : same_logs u u.
Proof. by repeat split. Qed.

Lemma settle_swap a b ra rb w :
  a <> b ->
  callbacks_are k w ->
  let w1 := run h [Settle a ra; Settle b rb] w in
  let w2 := run h [Settle b rb; Settle a ra] w in
  same_logs (ui w1) (ui w2) /\
  network w1 = network w2 /\
  pending w1 = pending w2.
Proof.
  intros Hne Hw w1 w2. subst w1 w2. rewrite !run_cons, !run_nil.
  destruct (pending w !! a) as [ka|] eqn:Ea; destruct (pending w !! b) as [kb|] eqn:Eb.
  - destruct (Hw _ _ Ea) as [-> _]. destruct (Hw _ _ Eb) as [-> _].
    rewrite (step_settle_pending h a ra k w Ea).
    rewrite (step_settle_pending h b rb k w Eb).
    rewrite (step_settle_pending h b rb k); [|cbn [pending]; by rewrite lookup_delete_ne].
    rewrite (step_settle_pending h a ra k); [|cbn [pending]; by rewrite lookup_delete_ne].
    cbn [ui network pending]. split; [apply k_commute|]. split; [done|].
    apply delete_delete.
  - rewrite (step_settle_unknown h b rb w Eb).
    rewrite (step_settle_pending h a ra ka w Ea).
    rewrite step_settle_unknown; [|cbn [pending]; by rewrite lookup_delete_ne].
    split; [apply same_logs_refl | done].
  - rewrite (step_settle_unknown h a ra w Ea).
    rewrite (step_settle_pending h b rb kb w Eb).
    rewrite step_settle_unknown; [|cbn [pending]; by rewrite lookup_delete_ne].
    split; [apply same_logs_refl | done].
  - rewrite (step_settle_unknown h a ra w Ea).
    rewrite (step_settle_unknown h b rb w Eb).
    rewrite (step_settle_unknown h a ra w Ea).
    split; [apply same_logs_refl | done].
Qed.

End SettleOrder.

Lemma perm_snoc2 {A} (l : list A) x y : (l ++ [x]) ++ [y] ≡ₚ (l ++ [y]) ++ [x].
Proof. rewrite <- !app_assoc. apply Permutation_app_head. simpl. apply perm_swap. Qed.

Lemma app_onSettled_commute o1 o2 u :
  same_logs (AppJs.onSettled o1 (AppJs.onSettled o2 u))
            (AppJs.onSettled o2 (AppJs.onSettled o1 u)).
Proof.
  destruct o1, o2; repeat split; simpl; try done; apply perm_snoc2.
Qed.

Lemma guide_onSettled_commute o1 o2 u :
  same_logs (Guide.onSettled o1 (Guide.onSettled o2 u))
            (Guide.onSettled o2 (Guide.onSettled o1 u)).
Proof.
  destruct o1, o2; repeat split; simpl; try done; apply perm_snoc2.
Qed.

(** X8: the order in which two different calls settle changes nothing but
    the order of the logs: the same requests are on the network, the same
    calls stay outstanding, [number] is the same and the texts rendered, the
    console entries and the unhandled rejections are the same up to order
    (so only which text is on display last depends on the order). Both
    handlers, in every state reached from the initial one. *)
Theorem settlement_order_only_reorders
    (numberInt : string -> jsval) (es : list event) (a b : nat) (ra rb : reply) :
  a <> b ->
  (same_logs (ui (run AppJs.squareHandler [Settle a ra; Settle b rb] (app_run es init)))
             (ui (run AppJs.squareHandler [Settle b rb; Settle a ra] (app_run es init))) /\
   network (run AppJs.squareHandler [Settle a ra; Settle b rb] (app_run es init)) =
     network (run AppJs.squareHandler [Settle b rb; Settle a ra] (app_run es init)) /\
   pending (run AppJs.squareHandler [Settle a ra; Settle b rb] (app_run es init)) =
     pending (run AppJs.squareHandler [Settle b rb; Settle a ra] (app_run es init))) /\
  (same_logs
     (ui (run (Guide.squareHandler numberInt) [Settle a ra; Settle b rb]
            (guide_run numberInt es init)))
     (ui (run (Guide.squareHandler numberInt) [Settle b rb; Settle a ra]
            (guide_run numberInt es init))) /\
   network (run (Guide.squareHandler numberInt) [Settle a ra; Settle b rb]
              (guide_run numberInt es init)) =
     network (run (Guide.squareHandler numberInt) [Settle b rb; Settle a ra]
                (guide_run numberInt es init)) /\
   pending (run (Guide.squareHandler numberInt) [Settle a ra; Settle b rb]
              (guide_run numberInt es init)) =
     pending (run (Guide.squareHandler numberInt) [Settle b rb; Settle a ra]
                (guide_run numberInt es init))).
Proof.
  intros Hne. split.
  - apply (settle_swap _ _ app_onSettled_commute a b ra rb _ Hne), app_callbacks.
  - apply (settle_swap _ _ guide_onSettled_commute a b ra rb _ Hne), guide_callbacks.
Qed.

Lemma settlement_order_only_reorders_witness :
  0 <> 1 /\
  same_logs
    (ui (run AppJs.squareHandler
           [Settle 0 (HttpReply 200 "4"); Settle 1 (HttpReply 200 "9")]
           (app_run [Edit "2"; Click; Edit "3"; Click] init)))
    (ui (run AppJs.squareHandler
           [Settle 1 (HttpReply 200 "9"); Settle 0 (HttpReply 200 "4")]
           (app_run [Edit "2"; Click; Edit "3"; Click] init))).
Proof.
  split; [lia|].
  apply (settlement_order_only_reorders (fun _ => VNum 0)
           [Edit "2"; Click; Edit "3"; Click] 0 1
           (HttpReply 200 "4") (HttpReply 200 "9")).
  lia.
Defined.

(** * The backend endpoint *)

Lemma all_digits_pretty_N_go x s :
  all_digits s = true -> all_digits (pretty_N_go x s) = true.
Proof.
  revert s. induction (N.lt_wf_0 x) as [x _ IH]; intros s Hs.
  assert (x = 0 \/ 0 < x)%N as [->|Hpos] by lia.
  - by rewrite pretty_N_go_0.
  - rewrite pretty_N_go_step by done. apply IH; [by apply N.div_lt|].
    cbn [all_digits]. rewrite Hs, andb_true_r.
    unfold pretty_N_char. by repeat case_match.
Qed.

Lemma pretty_N_go_nonempty x s : s <> "" -> pretty_N_go x s <> "".
Proof.
  revert s. induction (N.lt_wf_0 x) as [x _ IH]; intros s Hs.
  assert (x = 0 \/ 0 < x)%N as [->|Hpos] by lia.
  - by rewrite pretty_N_go_0.
  - rewrite pretty_N_go_step by done. apply IH; [by apply N.div_lt | done].
Qed.

Lemma pretty_N_digits (n : N) : all_digits (pretty n) = true /\ pretty n <> "".
Proof.
  unfold pretty, pretty_N. case_decide as Hn; [done|].
  split; [by apply all_digits_pretty_N_go|].
  rewrite pretty_N_go_step by lia. by apply pretty_N_go_nonempty.
Qed.

Lemma pretty_square_digits (z : Z) :
  all_digits (pretty (z * z)%Z) = true /\ pretty (z * z)%Z <> "".
Proof.
  destruct (z * z)%Z as [|p|p] eqn:E.
  - done.
  - apply (pretty_N_digits (Npos p)).
  - nia.
Qed.

Lemma digits_not_marked s :
  all_digits s = true -> s <> "" -> String.prefix "Error: " s = false.
Proof.
  destruct s as [|c s]; [done|]. cbn [all_digits]. intros Hd _.
  apply andb_true_iff in Hd as [Hc _].
  destruct c as [[] [] [] [] [] [] [] []]; try discriminate Hc; reflexivity.
Qed.

(** X9: for every integer whose square [str] converts (at most 4300 digits,
    CPython's limit), the endpoint's answer is a non-empty string of at most
    4300 decimal digits: a square is never negative, so the answer never
    carries a sign, and it never begins with the marker ["Error: "] that the
    guide's client puts in front of failures. *)
Theorem backend_square_is_unsigned_decimal (data : Backend.My_Number_Class) :
  Backend.str_returns (Backend.number data * Backend.number data) = true ->
  all_digits (Backend.square data) = true /\
  Backend.square data <> "" /\
  String.length (Backend.square data) <= Backend.int_max_str_digits /\
  String.prefix "Error: " (Backend.square data) = false.
Proof.
  intros Hstr. unfold Backend.square.
  destruct (pretty_square_digits (Backend.number data)) as [Hd Hn].
  split; [exact Hd|]. split; [exact Hn|]. split; [|by apply digits_not_marked].
  unfold Backend.str_returns in Hstr. apply Nat.leb_le in Hstr.
  rewrite Z.abs_eq in Hstr by nia. exact Hstr.
Qed.

Lemma backend_square_is_unsigned_decimal_witness :
  Backend.str_returns (12 * 12) = true /\
  all_digits (Backend.square {| Backend.number := 12 |}) = true /\
  Backend.square {| Backend.number := 12 |} <> "" /\
  String.length (Backend.square {| Backend.number := 12 |}) <=
    Backend.int_max_str_digits /\
  String.prefix "Error: " (Backend.square {| Backend.number := 12 |}) = false.
Proof.
  split; [reflexivity|].
  apply (backend_square_is_unsigned_decimal {| Backend.number := 12 |}).
  reflexivity.
Defined.

Example backend_square_values :
  Backend.square {| Backend.number := 5 |} = "25" /\
  Backend.square {| Backend.number := -12 |} = "144" /\
  Backend.square {| Backend.number := 0 |} = "0".
Proof. repeat split. Qed.

(** X10: two requests get the same answer from the endpoint exactly when
    their numbers are equal or opposite: the answer determines the number up
    to its sign. *)
Theorem backend_square_same_answer (d1 d2 : Backend.My_Number_Class) :
  Backend.square d1 = Backend.square d2 <->
  (Backend.number d1 = Backend.number d2 \/
   Backend.number d1 = (- Backend.number d2)%Z).
Proof.
  unfold Backend.square. split.
  - intros H. apply (inj pretty) in H.
    assert ((Backend.number d1 - Backend.number d2) *
            (Backend.number d1 + Backend.number d2) = 0)%Z as H0 by lia.
    apply Z.mul_eq_0 in H0. lia.
  - intros [->| ->]; [reflexivity|]. f_equal. lia.
Qed.

(** * Routing *)

Lemma strip_prefix_spec p s rest :
  strip_prefix p s = Some rest <-> s = p +:+ rest.
Proof.
  revert s. induction p as [|a p IH]; intros s; simpl.
  - split; [by intros [= ->] | by intros ->].
  - destruct s as [|b s]; [split; discriminate|].
    destruct (Ascii.eqb a b) eqn:E.
    + apply Ascii.eqb_eq in E as ->. rewrite IH. split; [by intros -> | by intros [= ->]].
    + apply Ascii.eqb_neq in E. split; [discriminate | intros [= ? ?]; by destruct E].
Qed.

Lemma strip_prefix_append p rest : strip_prefix p (p +:+ rest) = Some rest.
Proof. by apply strip_prefix_spec. Qed.




Example nginx_strips_api_prefix :
  nginx_conf "/api/square" = ProxyPass "http://backend-service:8000" "/square" /\
  nginx_conf_https "/api/square" =
    ProxyPass "http://backend-service:8000" "/api/square" /\
  nginx_conf "/api" = TryFiles "/api" /\
  nginx_conf "/index.html" = TryFiles "/index.html".
Proof. repeat split. Qed.

(** X12: no request App.js ever sends is handed to the backend by the
    configurations of the guides: its path [/square] is outside [/api/], so
    both nginx configurations serve it from the frontend's files and the
    ingress sends it to the frontend service. *)
Theorem appjs_requests_never_reach_backend (es : list event) :
  Forall (fun r =>
            nginx_conf (url r) = TryFiles "/square" /\
            nginx_conf_https (url r) = TryFiles "/square" /\
            ingress (url r) = (frontend_service, 80%N))
         (network (app_run es init)).
Proof.
  unfold app_run. rewrite app_is_posting.
  apply network_Forall_run; [|constructor].
  intros s. repeat split.
Qed.

(** X13: every request the guide's handler sends is handed to the backend:
    by the ingress and the HTTPS nginx configuration with its path
    [/api/square] unchanged, which is the path of the endpoint; by the first
    nginx configuration as [/square], which is not. *)
Theorem guide_requests_reach_backend
    (numberInt : string -> jsval) (es : list event) :
  Forall (fun r =>
            method r = POST /\
            ingress (url r) = (backend_service, 8000%N) /\
            nginx_conf_https (url r) =
              ProxyPass "http://backend-service:8000" Backend.route /\
            url r = Backend.route /\
            nginx_conf (url r) = ProxyPass "http://backend-service:8000" "/square" /\
            "/square" <> Backend.route)
         (network (guide_run numberInt es init)).
Proof.
  unfold guide_run. rewrite guide_is_posting.
  apply network_Forall_run; [|constructor].
  intros s. repeat split. discriminate.
Qed.

(** * The client in front of the HTTPS deployment *)

(** X14: the guide's handler in front of the HTTPS deployment. When
    [numberInt] holds the integer [z] at the click, the request sent is
    handed to the endpoint, which answers 200 with the decimal of [z * z];
    once that reply has settled the call, the page displays exactly that
    decimal, a string of digits, and nothing is unhandled. *)
Theorem guide_click_displays_square
    (numberInt : string -> jsval) (es : list event) (z : Z) :
  numberInt (number (ui (guide_run numberInt es init))) = VNum z ->
  let w := guide_run numberInt es init in
  let w1 := step (Guide.squareHandler numberInt) Click w in
  exists r answer,
    last (network w1) = Some r /\
    https_deployment r = Some answer /\
    answer = HttpReply 200 (pretty (z * z)%Z) /\
    let w2 := step (Guide.squareHandler numberInt)
                (Settle (length (network w)) answer) w1 in
    text_a (ui w2) = pretty (z * z)%Z /\
    all_digits (text_a (ui w2)) = true /\
    unhandled (ui w2) = [] /\
    pending w2 !! length (network w) = None.
Proof.
  intros Hz w w1. subst w w1. cbn [step].
  eexists. exists (HttpReply 200 (pretty (z * z)%Z)).
  split; [unfold Guide.squareHandler, axios_post; cbn [network]; apply last_snoc|].
  split.
  { unfold https_deployment. cbn [url method body]. simpl ingress.
    rewrite decide_True by done. rewrite lookup_singleton_eq.
    rewrite Hz. reflexivity. }
  split; [reflexivity|]. cbv zeta.
  assert (Hp : pending (Guide.squareHandler numberInt (guide_run numberInt es init))
                 !! length (network (guide_run numberInt es init))
               = Some Guide.onSettled).
  { unfold Guide.squareHandler, axios_post. cbn [pending]. apply lookup_insert_eq. }
  rewrite Hp. cbn [ui pending]. simpl axios_settle. rewrite guide_onSettled_fulfilled.
  cbn [sample text_a unhandled data].
  split; [reflexivity|]. split; [apply pretty_square_digits|]. split.
  - unfold Guide.squareHandler, axios_post. cbn [ui].
    apply guide_never_unhandled.
  - apply lookup_delete_eq.
Qed.

Lemma guide_click_displays_square_witness :
  VNum 5 = VNum 5 /\
  text_a (ui (guide_run (fun _ => VNum 5)
                [Edit "5"; Click; Settle 0 (HttpReply 200 "25")] init)) = "25".
Proof.
  split; [reflexivity|].
  destruct (guide_click_displays_square (fun _ => VNum 5) [Edit "5"] 5 eq_refl)
    as (r & answer & _ & _ & -> & Ht & _).
  exact Ht.
Defined.
